(** * Bank_Parse: the transaction normaliser of [src/main.py]

    A shallow embedding of [process_transactions] (the regular expression,
    [re.finditer], the row flattening and the record dictionaries it builds)
    and of the [pd.DataFrame] the records are handed to.

    Text is modelled as Rocq [string]s, and the character classes below
    ([\d], [\s], [\w], [str.strip], [str.upper]) are Python's on 7-bit
    ASCII text only: a character above 127 is here neither a digit, a space
    nor a word character and [upper] leaves it as it is, while Python's
    Unicode-aware classes may accept or change it.  The results below are
    stated for the model; they carry over to Python for ASCII input, or
    where, as for the record layout, the loops and the extraction, they do
    not depend on the character classes. *)

From Stdlib Require Import String Ascii List Bool Arith Lia ZArith.
Import ListNotations.
Open Scope string_scope.
Open Scope list_scope.

(** ** Python values and exceptions *)

Inductive py_exc :=
| AttributeError.

(** Result of a Python computation that may raise. *)
Inductive exc (A : Type) :=
| Ok (a : A)
| Raise (e : py_exc).
Arguments Ok {A} a.
Arguments Raise {A} e.

Definition bind {A B} (m : exc A) (k : A -> exc B) : exc B :=
  match m with
  | Ok a => k a
  | Raise e => Raise e
  end.

Notation "x <- m ;; k" := (bind m (fun x => k))
  (at level 61, m at next level, right associativity).

(** A value stored in a record dictionary ([m.group(k)] may be [None]);
    [PNaN] is what pandas puts in a cell whose key a record lacks. *)
Inductive pyval :=
| PStr (s : string)
| PNone
| PNaN.

(** A cell of an extracted table row: a string, a number or a null.
    The number's value is never inspected by the normaliser. *)
Inductive cell :=
| CStr (s : string)
| CNum (n : Z)
| CNull.

(** ** Characters and [str] methods *)

Definition is_digit (c : ascii) : bool :=
  let n := nat_of_ascii c in (48 <=? n)%nat && (n <=? 57)%nat.

(** [\s] and [str.isspace] on ASCII: \t \n \v \f \r, \x1c-\x1f and space. *)
Definition is_space (c : ascii) : bool :=
  let n := nat_of_ascii c in
  ((9 <=? n)%nat && (n <=? 13)%nat) || ((28 <=? n)%nat && (n <=? 32)%nat).

Definition is_lower (c : ascii) : bool :=
  let n := nat_of_ascii c in (97 <=? n)%nat && (n <=? 122)%nat.

Definition is_upper (c : ascii) : bool :=
  let n := nat_of_ascii c in (65 <=? n)%nat && (n <=? 90)%nat.

(** [\w]: letters, digits and underscore. *)
Definition is_word (c : ascii) : bool :=
  is_digit c || is_lower c || is_upper c || Ascii.eqb c "_"%char.

Definition upper_char (c : ascii) : ascii :=
  if is_lower c then ascii_of_nat (nat_of_ascii c - 32)%nat else c.

(** [s.upper()] *)
Fixpoint py_upper (s : string) : string :=
  match s with
  | EmptyString => EmptyString
  | String c t => String (upper_char c) (py_upper t)
  end.

(** [s.replace(',', '')] *)
Fixpoint remove_commas (s : string) : string :=
  match s with
  | EmptyString => EmptyString
  | String c t =>
      if Ascii.eqb c ","%char then remove_commas t else String c (remove_commas t)
  end.

(** [s.lstrip()] *)
Fixpoint py_lstrip (s : string) : string :=
  match s with
  | EmptyString => EmptyString
  | String c t => if is_space c then py_lstrip t else s
  end.

Fixpoint rev_string (s : string) : string :=
  match s with
  | EmptyString => EmptyString
  | String c t => rev_string t ++ String c EmptyString
  end.

(** [s.strip()] *)
Definition py_strip (s : string) : string :=
  rev_string (py_lstrip (rev_string (py_lstrip s))).

(** [sep.join(xs)] *)
Fixpoint py_join (sep : string) (xs : list string) : string :=
  match xs with
  | [] => EmptyString
  | [x] => x
  | x :: rest => x ++ sep ++ py_join sep rest
  end.

(** ** Regular expressions with Python's backtracking semantics

    Only the constructs the pattern of [process_transactions] uses:
    a one-character class, concatenation, alternation (left first), a
    greedy [+] over a character class and a capturing group. *)

Inductive regex :=
| RChar (p : ascii -> bool)
| RSeq (r1 r2 : regex)
| RAlt (r1 r2 : regex)
| RPlus (p : ascii -> bool)
| RGroup (g : nat) (r : regex).

(** Captured groups, most recent capture first. *)
Definition captures := list (nat * string).

Fixpoint group_lookup (g : nat) (cs : captures) : option string :=
  match cs with
  | [] => None
  | (g', t) :: rest => if Nat.eqb g g' then Some t else group_lookup g rest
  end.

(** The text consumed between input [s] and its remainder [s']. *)
Definition consumed (s s' : string) : string :=
  substring 0 (String.length s - String.length s') s.

Definition result := option (captures * string).

(** Greedy [p*]: try the longest run of [p] first, then give back one
    character at a time. *)
Fixpoint star (p : ascii -> bool) (cs : captures)
    (k : captures -> string -> result) (s : string) : result :=
  match s with
  | EmptyString => k cs s
  | String c t =>
      if p c then
        match star p cs k t with
        | Some r => Some r
        | None => k cs s
        end
      else k cs s
  end.

(** [matcher r cs k s]: match [r] at the start of [s], then run the
    continuation [k] on the captures and the rest of the input;
    backtrack into [r] when [k] fails. *)
Fixpoint matcher (r : regex) (cs : captures)
    (k : captures -> string -> result) (s : string) : result :=
  match r with
  | RChar p =>
      match s with
      | String c t => if p c then k cs t else None
      | EmptyString => None
      end
  | RSeq r1 r2 => matcher r1 cs (fun cs' s' => matcher r2 cs' k s') s
  | RAlt r1 r2 =>
      match matcher r1 cs k s with
      | Some res => Some res
      | None => matcher r2 cs k s
      end
  | RPlus p =>
      match s with
      | String c t => if p c then star p cs k t else None
      | EmptyString => None
      end
  | RGroup g r1 =>
      matcher r1 cs (fun cs' s' => k ((g, consumed s s') :: cs') s') s
  end.

(** [pattern.match(s)]: a match anchored at the start of [s]. *)
Definition match_at (r : regex) (s : string) : result :=
  matcher r [] (fun cs s' => Some (cs, s')) s.

(** [pattern.finditer(s)]: scan the start positions left to right; after a
    match, resume the search where it ended.  [fuel] bounds the number of
    steps; [finditer] gives one more than the length of the text, enough
    since each step either consumes a character or drops one. *)
Fixpoint finditer_fuel (r : regex) (fuel : nat) (s : string) : list captures :=
  match fuel with
  | O => []
  | S f =>
      match match_at r s with
      | Some (cs, s') => cs :: finditer_fuel r f s'
      | None =>
          match s with
          | EmptyString => []
          | String _ t => finditer_fuel r f t
          end
      end
  end.

Definition finditer (r : regex) (s : string) : list captures :=
  finditer_fuel r (S (String.length s)) s.

(** ** The transaction pattern

    [(\d{2}/\d{2}/\d{2})\s+(\d{2}/\d{2}/\d{2})\s+(\w+)\s+([\d,]+\.\d{2})\s+([\d,]+\.\d{2})(?:Dr|Cr)] *)

Definition lit (c : ascii) : regex := RChar (fun x => Ascii.eqb x c).
Definition digit : regex := RChar is_digit.
Definition two_digits : regex := RSeq digit digit.
Definition is_digit_or_comma (c : ascii) : bool := is_digit c || Ascii.eqb c ","%char.

(** [\d{2}/\d{2}/\d{2}] *)
Definition date_re : regex :=
  RSeq two_digits (RSeq (lit "/") (RSeq two_digits (RSeq (lit "/") two_digits))).

(** [[\d,]+\.\d{2}] *)
Definition amount_re : regex :=
  RSeq (RPlus is_digit_or_comma) (RSeq (lit ".") two_digits).

Definition spaces : regex := RPlus is_space.

(** [(?:Dr|Cr)] *)
Definition suffix_re : regex :=
  RAlt (RSeq (lit "D") (lit "r")) (RSeq (lit "C") (lit "r")).

Definition pattern : regex :=
  RSeq (RGroup 1 date_re)
  (RSeq spaces
  (RSeq (RGroup 2 date_re)
  (RSeq spaces
  (RSeq (RGroup 3 (RPlus is_word))
  (RSeq spaces
  (RSeq (RGroup 4 amount_re)
  (RSeq spaces
  (RSeq (RGroup 5 amount_re)
        suffix_re)))))))).

(** ** [process_transactions] *)

(** A row as [table_df.to_dict('records')] gives it: column name to cell,
    in column order. *)
Definition row := list (string * cell).

Record table := {
  table_number : Z;
  columns : list string;
  row_count : Z;
  data : list row
}.

Record tables_data := {
  number_of_tables : Z;
  tables : list table;
  error : option string
}.

(** A record dictionary, keys in insertion order. *)
Definition pyrecord := list (string * pyval).

(** [m.group(g)] *)
Definition group (cs : captures) (g : nat) : pyval :=
  match group_lookup g cs with
  | Some t => PStr t
  | None => PNone
  end.

(** A [str] method called on [m.group(g)]: [None] has no such method. *)
Definition str_method (f : string -> string) (v : pyval) : exc string :=
  match v with
  | PStr s => Ok (f s)
  | _ => Raise AttributeError
  end.

(** [" ".join(val for val in row.values() if isinstance(val, str) and val.strip())] *)
Definition keep_cell (v : cell) : option string :=
  match v with
  | CStr s => if String.eqb (py_strip s) "" then None else Some s
  | _ => None
  end.

Fixpoint kept_values (vs : list cell) : list string :=
  match vs with
  | [] => []
  | v :: rest =>
      match keep_cell v with
      | Some s => s :: kept_values rest
      | None => kept_values rest
      end
  end.

Definition row_text (r : row) : string :=
  py_join " " (kept_values (map snd r)).

(** The body of the [for m in pattern.finditer(row_text)] loop. *)
Definition record_of_match (m : captures) : exc pyrecord :=
  let post_date := group m 1 in
  let value_date := group m 2 in
  tran_type <- str_method py_upper (group m 3) ;;
  amount <- str_method remove_commas (group m 4) ;;
  balance <- str_method remove_commas (group m 5) ;;
  let debit := if String.eqb tran_type "DEBIT" then amount else "" in
  let credit := if String.eqb tran_type "CREDIT" then amount else "" in
  Ok [("Post Date", post_date);
      ("Value Date", value_date);
      ("Details", PStr tran_type);
      ("Debit", PStr debit);
      ("Credit", PStr credit);
      ("Balance", PStr balance)].

Fixpoint loop_matches (records : list pyrecord) (ms : list captures)
    : exc (list pyrecord) :=
  match ms with
  | [] => Ok records
  | m :: rest =>
      rec <- record_of_match m ;;
      loop_matches (records ++ [rec]) rest
  end.

Definition process_row (records : list pyrecord) (r : row) : exc (list pyrecord) :=
  let text := row_text r in
  if String.eqb text "" then Ok records
  else loop_matches records (finditer pattern text).

Fixpoint loop_rows (records : list pyrecord) (rs : list row) : exc (list pyrecord) :=
  match rs with
  | [] => Ok records
  | r :: rest =>
      records' <- process_row records r ;;
      loop_rows records' rest
  end.

Fixpoint loop_tables (records : list pyrecord) (ts : list table)
    : exc (list pyrecord) :=
  match ts with
  | [] => Ok records
  | t :: rest =>
      records' <- loop_rows records (data t) ;;
      loop_tables records' rest
  end.

(** The records list [process_transactions] builds before wrapping it in a
    DataFrame. *)
Definition collect_records (td : tables_data) : exc (list pyrecord) :=
  loop_tables [] (tables td).

(** ** [pd.DataFrame(records)] *)

Record dataframe := {
  df_columns : list string;
  df_rows : list (list pyval)
}.

Fixpoint add_keys (cols : list string) (keys : list string) : list string :=
  match keys with
  | [] => cols
  | k :: rest =>
      if existsb (String.eqb k) cols then add_keys cols rest
      else add_keys (cols ++ [k]) rest
  end.

Fixpoint dict_lookup (k : string) (d : pyrecord) : option pyval :=
  match d with
  | [] => None
  | (k', v) :: rest => if String.eqb k k' then Some v else dict_lookup k rest
  end.

(** Columns are the keys in order of first appearance; a missing key gives NaN. *)
Definition DataFrame (records : list pyrecord) : dataframe :=
  let cols := fold_left (fun cols d => add_keys cols (map fst d)) records [] in
  {| df_columns := cols;
     df_rows := map (fun d => map (fun c => match dict_lookup c d with
                                           | Some v => v
                                           | None => PNaN
                                           end) cols) records |}.

Definition process_transactions (td : tables_data) : exc dataframe :=
  records <- collect_records td ;;
  Ok (DataFrame records).

(** The grid [df.to_csv(index=False)] and [df.to_excel(index=False)]
    serialise: the header row of column names, then the data rows, with no
    index column. *)
Definition render_cell (v : pyval) : string :=
  match v with
  | PStr s => s
  | _ => ""
  end.

Definition export_grid (df : dataframe) : list (list string) :=
  df_columns df :: map (map render_cell) (df_rows df).

(** Small tables used below. *)
Definition one_cell_row (s : string) : row := [("Col1", CStr s)].

Definition mk_table (n : Z) (rs : list row) : table :=
  {| table_number := n; columns := ["Col1"]; row_count := Z.of_nat (length rs);
     data := rs |}.

Definition mk_tables (ts : list table) : tables_data :=
  {| number_of_tables := Z.of_nat (length ts); tables := ts; error := None |}.


(** ** Declarative semantics of the regular expressions

    [MatchesC r cs w cs']: [r] matches exactly the text [w], turning the
    captures [cs] into [cs']. *)

Fixpoint str_all (p : ascii -> bool) (s : string) : bool :=
  match s with
  | EmptyString => true
  | String c t => p c && str_all p t
  end.

Inductive MatchesC : regex -> captures -> string -> captures -> Prop :=
| MC_char p c cs :
    p c = true -> MatchesC (RChar p) cs (String c EmptyString) cs
| MC_seq r1 r2 cs0 cs1 cs2 w1 w2 :
    MatchesC r1 cs0 w1 cs1 -> MatchesC r2 cs1 w2 cs2 ->
    MatchesC (RSeq r1 r2) cs0 (w1 ++ w2)%string cs2
| MC_alt_l r1 r2 cs w cs' :
    MatchesC r1 cs w cs' -> MatchesC (RAlt r1 r2) cs w cs'
| MC_alt_r r1 r2 cs w cs' :
    MatchesC r2 cs w cs' -> MatchesC (RAlt r1 r2) cs w cs'
| MC_plus p c w cs :
    p c = true -> str_all p w = true -> MatchesC (RPlus p) cs (String c w) cs
| MC_group g r cs w cs' :
    MatchesC r cs w cs' -> MatchesC (RGroup g r) cs w ((g, w) :: cs').

Lemma substring_app_prefix (w s : string) :
  substring 0 (String.length w) (w ++ s) = w.
Proof.
  induction w as [|c w IH]; simpl.
  - destruct s; reflexivity.
  - rewrite IH. reflexivity.
Qed.

Lemma length_app_str (w s : string) :
  String.length (w ++ s) = String.length w + String.length s.
Proof. induction w; simpl; auto. Qed.

Lemma str_app_assoc (a b c : string) :
  ((a ++ b) ++ c)%string = (a ++ (b ++ c))%string.
Proof. induction a; simpl; congruence. Qed.

Lemma consumed_app (w s : string) : consumed (w ++ s) s = w.
Proof.
  unfold consumed. rewrite length_app_str.
  replace (String.length w + String.length s - String.length s) with (String.length w) by lia.
  apply substring_app_prefix.
Qed.

Lemma star_sound p cs k s res :
  star p cs k s = Some res ->
  exists w s', s = (w ++ s')%string /\ str_all p w = true /\ k cs s' = Some res.
Proof.
  revert res. induction s as [|c t IH]; intros res H; simpl in H.
  - exists EmptyString, EmptyString. auto.
  - destruct (p c) eqn:Hp.
    + destruct (star p cs k t) as [r|] eqn:Hs.
      * injection H as <-.
        destruct (IH r eq_refl) as (w & s' & -> & Hw & Hk).
        exists (String c w), s'. simpl. rewrite Hp, Hw. auto.
      * exists EmptyString, (String c t). auto.
    + exists EmptyString, (String c t). auto.
Qed.

Lemma matcher_sound r :
  forall cs k s res, matcher r cs k s = Some res ->
  exists w s' cs', s = (w ++ s')%string /\ MatchesC r cs w cs' /\ k cs' s' = Some res.
Proof.
  induction r as [p | r1 IH1 r2 IH2 | r1 IH1 r2 IH2 | p | g r1 IH1];
    intros cs k s res H; simpl in H.
  - destruct s as [|c t]; [discriminate|].
    destruct (p c) eqn:Hp; [|discriminate].
    exists (String c EmptyString), t, cs. repeat split; auto. constructor; auto.
  - destruct (IH1 _ _ _ _ H) as (w1 & s1 & cs1 & -> & M1 & H1).
    destruct (IH2 _ _ _ _ H1) as (w2 & s2 & cs2 & -> & M2 & H2).
    exists (w1 ++ w2)%string, s2, cs2. rewrite str_app_assoc. repeat split; auto.
    econstructor; eauto.
  - destruct (matcher r1 cs k s) as [res1|] eqn:E1.
    + inversion H; subst.
      destruct (IH1 _ _ _ _ E1) as (w & s' & cs' & -> & M & Hk).
      exists w, s', cs'. repeat split; auto. apply MC_alt_l; auto.
    + destruct (IH2 _ _ _ _ H) as (w & s' & cs' & -> & M & Hk).
      exists w, s', cs'. repeat split; auto. apply MC_alt_r; auto.
  - destruct s as [|c t]; [discriminate|].
    destruct (p c) eqn:Hp; [|discriminate].
    destruct (star_sound _ _ _ _ _ H) as (w & s' & -> & Hw & Hk).
    exists (String c w), s', cs. repeat split; auto. constructor; auto.
  - destruct (IH1 _ _ _ _ H) as (w & s' & cs' & -> & M & Hk).
    rewrite consumed_app in Hk.
    exists w, s', ((g, w) :: cs'). repeat split; auto. constructor; auto.
Qed.

(** ** What a match of the transaction pattern captures *)

Fixpoint no_groups (r : regex) : bool :=
  match r with
  | RGroup _ _ => false
  | RSeq r1 r2 | RAlt r1 r2 => no_groups r1 && no_groups r2
  | RChar _ | RPlus _ => true
  end.

Lemma no_groups_captures r cs w cs' :
  MatchesC r cs w cs' -> no_groups r = true -> cs' = cs.
Proof.
  induction 1; simpl; intros Hn; try reflexivity.
  - apply andb_prop in Hn as [H1 H2]. rewrite IHMatchesC2, IHMatchesC1; auto.
  - apply andb_prop in Hn as [H1 H2]. auto.
  - apply andb_prop in Hn as [H1 H2]. auto.
  - discriminate.
Qed.

(** The text [[\d,]+\.\d{2}] accepts: a non-empty run of digits and commas,
    a point, two digits. *)
Definition amount_token (a : string) : Prop :=
  exists ip x y,
    a = (ip ++ String "." (String x (String y EmptyString)))%string /\
    ip <> EmptyString /\ str_all is_digit_or_comma ip = true /\
    is_digit x = true /\ is_digit y = true.

Ltac inv_mc :=
  repeat match goal with
  | H : MatchesC (RSeq _ _) _ _ _ |- _ => inversion H; subst; clear H
  | H : MatchesC (RGroup _ _) _ _ _ |- _ => inversion H; subst; clear H
  | H : MatchesC (RChar _) _ _ _ |- _ => inversion H; subst; clear H
  | H : MatchesC (RPlus _) _ _ _ |- _ => inversion H; subst; clear H
  end.

Ltac close_bools :=
  simpl; repeat match goal with
  | H : ?x = true |- context [?x] => rewrite H
  end; reflexivity.

Lemma amount_re_token cs w cs' :
  MatchesC amount_re cs w cs' -> amount_token w.
Proof.
  unfold amount_re, two_digits, digit, lit. intros H. inv_mc.
  match goal with
  | H : Ascii.eqb _ "."%char = true |- _ => apply Ascii.eqb_eq in H; subst
  end.
  eexists (String _ _), _, _. simpl. repeat split; eauto.
  - discriminate.
  - close_bools.
Qed.

(** A match of the whole pattern sets groups 1 to 5, in that order, and
    groups 3, 4 and 5 hold a word and two amount tokens. *)
Lemma pattern_captures cs0 w cs :
  MatchesC pattern cs0 w cs ->
  exists d1 d2 t a b,
    cs = (5, b) :: (4, a) :: (3, t) :: (2, d2) :: (1, d1) :: cs0 /\
    t <> EmptyString /\ str_all is_word t = true /\
    amount_token a /\ amount_token b.
Proof.
  unfold pattern. intros H.
  repeat match goal with
  | H : MatchesC (RSeq _ _) _ _ _ |- _ => inversion H; subst; clear H
  | H : MatchesC (RGroup _ _) _ _ _ |- _ => inversion H; subst; clear H
  end.
  repeat match goal with
  | H : MatchesC amount_re _ _ _ |- _ =>
      pose proof (amount_re_token _ _ _ H);
      pose proof (no_groups_captures _ _ _ _ H eq_refl); subst; clear H
  end.
  match goal with
  | H : MatchesC (RPlus is_word) _ _ _ |- _ => inversion H; subst; clear H
  end.
  repeat match goal with
  | H : MatchesC ?r _ _ _ |- _ =>
      pose proof (no_groups_captures _ _ _ _ H eq_refl); subst; clear H
  end.
  do 5 eexists. repeat split; eauto.
  - discriminate.
  - close_bools.
Qed.

Lemma finditer_fuel_sound r f s cs :
  In cs (finditer_fuel r f s) -> exists s0 s', match_at r s0 = Some (cs, s').
Proof.
  revert s. induction f as [|f IH]; intros s H; simpl in H; [contradiction|].
  destruct (match_at r s) as [[cs1 s1]|] eqn:E.
  - destruct H as [<- | H]; eauto.
  - destruct s as [|c t]; [contradiction|]. eauto.
Qed.

Lemma match_at_pattern s cs s' :
  match_at pattern s = Some (cs, s') ->
  exists d1 d2 t a b,
    cs = [(5, b); (4, a); (3, t); (2, d2); (1, d1)] /\
    t <> EmptyString /\ str_all is_word t = true /\
    amount_token a /\ amount_token b.
Proof.
  unfold match_at. intros H.
  destruct (matcher_sound _ _ _ _ _ H) as (w & s'' & cs' & _ & M & Hk).
  injection Hk as -> _.
  exact (pattern_captures _ _ _ M).
Qed.

Lemma finditer_pattern_captures text cs :
  In cs (finditer pattern text) ->
  exists d1 d2 t a b,
    cs = [(5, b); (4, a); (3, t); (2, d2); (1, d1)] /\
    t <> EmptyString /\ str_all is_word t = true /\
    amount_token a /\ amount_token b.
Proof.
  intros H. destruct (finditer_fuel_sound _ _ _ _ H) as (s0 & s' & E).
  exact (match_at_pattern _ _ _ E).
Qed.

(** The fuel of [finditer] is enough: every match of the pattern consumes
    at least one character, so more fuel finds nothing more. *)
Fixpoint min_len (r : regex) : nat :=
  match r with
  | RChar _ | RPlus _ => 1
  | RSeq r1 r2 => min_len r1 + min_len r2
  | RAlt r1 r2 => Nat.min (min_len r1) (min_len r2)
  | RGroup _ r1 => min_len r1
  end.

Lemma min_len_sound r cs w cs' :
  MatchesC r cs w cs' -> min_len r <= String.length w.
Proof.
  induction 1; simpl; try rewrite length_app_str; lia.
Qed.

Lemma match_at_pattern_shorter s cs s' :
  match_at pattern s = Some (cs, s') -> String.length s' < String.length s.
Proof.
  unfold match_at. intros H.
  destruct (matcher_sound _ _ _ _ _ H) as (w & s'' & cs'' & -> & M & Hk).
  injection Hk as _ ->.
  pose proof (min_len_sound _ _ _ _ M) as Hl. simpl in Hl.
  rewrite length_app_str. lia.
Qed.

Lemma finditer_fuel_enough f n s :
  String.length s < f -> finditer_fuel pattern (f + n) s = finditer_fuel pattern f s.
Proof.
  revert s. induction f as [|f IH]; intros s Hs; [simpl in Hs; lia|].
  simpl. destruct (match_at pattern s) as [[cs s']|] eqn:E.
  - apply match_at_pattern_shorter in E. rewrite IH by lia. reflexivity.
  - destruct s as [|c t]; [reflexivity|]. simpl in Hs. rewrite IH by lia. reflexivity.
Qed.

Lemma record_of_match_groups d1 d2 t a b :
  record_of_match [(5, b); (4, a); (3, t); (2, d2); (1, d1)] =
  Ok [("Post Date", PStr d1);
      ("Value Date", PStr d2);
      ("Details", PStr (py_upper t));
      ("Debit", PStr (if String.eqb (py_upper t) "DEBIT" then remove_commas a else ""));
      ("Credit", PStr (if String.eqb (py_upper t) "CREDIT" then remove_commas a else ""));
      ("Balance", PStr (remove_commas b))].
Proof. reflexivity. Qed.

(** ** The loops as one traversal of all matches *)

Fixpoint map_exc {A B} (f : A -> exc B) (l : list A) : exc (list B) :=
  match l with
  | [] => Ok []
  | x :: rest =>
      y <- f x ;;
      ys <- map_exc f rest ;;
      Ok (y :: ys)
  end.

(** The matches of one row, in the order [finditer] yields them; an empty
    row text is skipped. *)
Definition row_matches (r : row) : list captures :=
  let text := row_text r in
  if String.eqb text "" then [] else finditer pattern text.

(** All matches: tables in input order, rows in table order, matches in
    text order. *)
Definition all_matches (ts : list table) : list captures :=
  flat_map (fun t => flat_map row_matches (data t)) ts.

Lemma bind_assoc {A B C} (m : exc A) (f : A -> exc B) (g : B -> exc C) :
  bind (bind m f) g = bind m (fun a => bind (f a) g).
Proof. destruct m; reflexivity. Qed.

Lemma map_exc_app {A B} (f : A -> exc B) l1 l2 :
  map_exc f (l1 ++ l2) =
  (ys1 <- map_exc f l1 ;; ys2 <- map_exc f l2 ;; Ok (ys1 ++ ys2)).
Proof.
  induction l1 as [|x l1 IH]; simpl.
  - destruct (map_exc f l2); reflexivity.
  - destruct (f x); [|reflexivity]. simpl. rewrite IH.
    destruct (map_exc f l1); [|reflexivity]. simpl.
    destruct (map_exc f l2); reflexivity.
Qed.

Lemma loop_matches_map acc ms :
  loop_matches acc ms = (ys <- map_exc record_of_match ms ;; Ok (acc ++ ys)).
Proof.
  revert acc. induction ms as [|m ms IH]; intros acc; simpl.
  - rewrite app_nil_r. reflexivity.
  - destruct (record_of_match m) as [rec|e]; [|reflexivity]. simpl.
    rewrite IH. destruct (map_exc record_of_match ms); [|reflexivity].
    simpl. rewrite <- app_assoc. reflexivity.
Qed.

Lemma process_row_map acc r :
  process_row acc r = (ys <- map_exc record_of_match (row_matches r) ;; Ok (acc ++ ys)).
Proof.
  unfold process_row, row_matches.
  destruct (String.eqb (row_text r) "").
  - simpl. rewrite app_nil_r. reflexivity.
  - apply loop_matches_map.
Qed.

Lemma loop_rows_map acc rs :
  loop_rows acc rs =
  (ys <- map_exc record_of_match (flat_map row_matches rs) ;; Ok (acc ++ ys)).
Proof.
  revert acc. induction rs as [|r rs IH]; intros acc; simpl.
  - rewrite app_nil_r. reflexivity.
  - rewrite process_row_map, map_exc_app.
    destruct (map_exc record_of_match (row_matches r)); [|reflexivity]. simpl.
    rewrite IH. destruct (map_exc record_of_match (flat_map row_matches rs));
      [|reflexivity].
    simpl. rewrite <- app_assoc. reflexivity.
Qed.

Lemma loop_tables_map acc ts :
  loop_tables acc ts =
  (ys <- map_exc record_of_match (all_matches ts) ;; Ok (acc ++ ys)).
Proof.
  revert acc. induction ts as [|t ts IH]; intros acc; simpl.
  - rewrite app_nil_r. reflexivity.
  - unfold all_matches in *. simpl. rewrite loop_rows_map, map_exc_app.
    destruct (map_exc record_of_match (flat_map row_matches (data t)));
      [|reflexivity]. simpl.
    rewrite IH. destruct (map_exc record_of_match
      (flat_map (fun t0 => flat_map row_matches (data t0)) ts)); [|reflexivity].
    simpl. rewrite <- app_assoc. reflexivity.
Qed.

Lemma map_exc_ok {A B} (f : A -> exc B) l :
  (forall x, In x l -> exists y, f x = Ok y) -> exists ys, map_exc f l = Ok ys.
Proof.
  induction l as [|x l IH]; intros H; simpl; [eauto|].
  destruct (H x (or_introl eq_refl)) as [y ->]. simpl.
  destruct IH as [ys ->]; [intros; apply H; simpl; auto|]. simpl. eauto.
Qed.

Lemma map_exc_in {A B} (f : A -> exc B) l ys y :
  map_exc f l = Ok ys -> In y ys -> exists x, In x l /\ f x = Ok y.
Proof.
  revert ys. induction l as [|x l IH]; intros ys H Hy; simpl in H.
  - injection H as <-. contradiction.
  - destruct (f x) as [y'|] eqn:Ef; [|discriminate]. simpl in H.
    destruct (map_exc f l) as [ys'|] eqn:Er; [|discriminate].
    injection H as <-. destruct Hy as [<- | Hy].
    + exists x. split; simpl; auto.
    + destruct (IH ys' eq_refl Hy) as (x' & Hin & Hf). exists x'. split; simpl; auto.
Qed.

Lemma all_matches_in ts cs :
  In cs (all_matches ts) -> exists text, In cs (finditer pattern text).
Proof.
  unfold all_matches. intros H.
  apply in_flat_map in H as (t & _ & H).
  apply in_flat_map in H as (r & _ & H).
  unfold row_matches in H. destruct (String.eqb (row_text r) ""); [contradiction|].
  eauto.
Qed.

Lemma collect_records_map td :
  collect_records td = map_exc record_of_match (all_matches (tables td)).
Proof.
  unfold collect_records. rewrite loop_tables_map.
  destruct (map_exc record_of_match (all_matches (tables td))); reflexivity.
Qed.

(** Every collected record is the dictionary built from a match of the
    pattern in some row text. *)
Lemma collected_record td recs rec :
  collect_records td = Ok recs -> In rec recs ->
  exists text d1 d2 t a b,
    In [(5, b); (4, a); (3, t); (2, d2); (1, d1)] (finditer pattern text) /\
    amount_token a /\ amount_token b /\
    rec = [("Post Date", PStr d1);
           ("Value Date", PStr d2);
           ("Details", PStr (py_upper t));
           ("Debit", PStr (if String.eqb (py_upper t) "DEBIT" then remove_commas a else ""));
           ("Credit", PStr (if String.eqb (py_upper t) "CREDIT" then remove_commas a else ""));
           ("Balance", PStr (remove_commas b))].
Proof.
  rewrite collect_records_map. intros H Hin.
  destruct (map_exc_in _ _ _ _ H Hin) as (cs & Hcs & Hrec).
  destruct (all_matches_in _ _ Hcs) as (text & Ht).
  destruct (finditer_pattern_captures _ _ Ht) as (d1 & d2 & t & a & b & -> & _ & _ & Ha & Hb).
  rewrite record_of_match_groups in Hrec. injection Hrec as <-.
  exists text, d1, d2, t, a, b. auto.
Qed.

Lemma all_matches_in_row ts cs :
  In cs (all_matches ts) ->
  exists t r, In t ts /\ In r (data t) /\ In cs (row_matches r).
Proof.
  unfold all_matches. intros H.
  apply in_flat_map in H as (t & Ht & H).
  apply in_flat_map in H as (r & Hr & H).
  eauto.
Qed.

Lemma row_matches_in r cs : In cs (row_matches r) -> In cs (finditer pattern (row_text r)).
Proof.
  unfold row_matches. destruct (String.eqb (row_text r) ""); [contradiction|auto].
Qed.

(** Every collected record is the dictionary [record_of_match] builds from
    a match of the pattern in the text of one of the input's rows. *)
Lemma collected_record_in_row td recs rec :
  collect_records td = Ok recs -> In rec recs ->
  exists t r d1 d2 tt a b,
    In t (tables td) /\ In r (data t) /\
    In [(5, b); (4, a); (3, tt); (2, d2); (1, d1)] (row_matches r) /\
    record_of_match [(5, b); (4, a); (3, tt); (2, d2); (1, d1)] = Ok rec /\
    amount_token a /\ amount_token b.
Proof.
  rewrite collect_records_map. intros H Hin.
  destruct (map_exc_in _ _ _ _ H Hin) as (cs & Hcs & Hrec).
  destruct (all_matches_in_row _ _ Hcs) as (t & r & Ht & Hr & Hm).
  destruct (finditer_pattern_captures _ _ (row_matches_in _ _ Hm))
    as (d1 & d2 & tt & a & b & -> & _ & _ & Ha & Hb).
  exists t, r, d1, d2, tt, a, b. auto 8.
Qed.

Lemma remove_commas_app (u v : string) :
  remove_commas (u ++ v) = (remove_commas u ++ remove_commas v)%string.
Proof.
  induction u as [|c u IH]; simpl; [reflexivity|].
  destruct (Ascii.eqb c ","%char); simpl; rewrite IH; reflexivity.
Qed.

Lemma remove_commas_digits ip :
  str_all is_digit_or_comma ip = true -> str_all is_digit (remove_commas ip) = true.
Proof.
  induction ip as [|c ip IH]; simpl; [reflexivity|].
  intros H. apply andb_prop in H as [Hc Hip].
  destruct (Ascii.eqb c ","%char) eqn:E; [auto|].
  simpl. unfold is_digit_or_comma in Hc. rewrite E, orb_false_r in Hc.
  rewrite Hc. auto.
Qed.

(** Comma stripping of an amount token keeps the point and both decimals. *)
Lemma remove_commas_token ip x y :
  is_digit x = true -> is_digit y = true ->
  remove_commas (ip ++ String "." (String x (String y EmptyString))) =
  (remove_commas ip ++ String "." (String x (String y EmptyString)))%string.
Proof.
  intros Hx Hy. rewrite remove_commas_app. simpl.
  assert (Ex : Ascii.eqb x ","%char = false).
  { destruct (Ascii.eqb x ","%char) eqn:E; [|reflexivity].
    apply Ascii.eqb_eq in E. subst. discriminate. }
  assert (Ey : Ascii.eqb y ","%char = false).
  { destruct (Ascii.eqb y ","%char) eqn:E; [|reflexivity].
    apply Ascii.eqb_eq in E. subst. discriminate. }
  rewrite Ex, Ey. reflexivity.
Qed.

(** No start position of [s] (the end included) begins a match. *)
Fixpoint no_match_anywhere (s : string) : bool :=
  match match_at pattern s with
  | Some _ => false
  | None =>
      match s with
      | EmptyString => true
      | String _ t => no_match_anywhere t
      end
  end.

Lemma no_match_anywhere_eq s :
  no_match_anywhere s =
  match match_at pattern s with
  | Some _ => false
  | None =>
      match s with
      | EmptyString => true
      | String _ t => no_match_anywhere t
      end
  end.
Proof. destruct s; reflexivity. Qed.

Lemma finditer_fuel_no_match f s :
  no_match_anywhere s = true -> finditer_fuel pattern f s = [].
Proof.
  revert s. induction f as [|f IH]; intros s H; [reflexivity|].
  rewrite no_match_anywhere_eq in H. cbn [finditer_fuel].
  destruct (match_at pattern s) as [res|]; [discriminate|].
  destruct s as [|c t]; auto.
Qed.

(** *** All non-overlapping matches of a text

    [scan s ms]: reading [s] left to right, [ms] lists the leftmost match,
    then the leftmost match of the text after it, and so on; positions
    skipped in between ([p]) start no match, and after the last match no
    position starts one. *)
Fixpoint no_match_in_gap (p tail : string) : bool :=
  match p with
  | EmptyString => true
  | String c p' =>
      match match_at pattern (String c (p' ++ tail)) with
      | Some _ => false
      | None => no_match_in_gap p' tail
      end
  end.

Inductive scan : string -> list captures -> Prop :=
| scan_end s :
    no_match_anywhere s = true -> scan s []
| scan_hit p w rest cs ms :
    no_match_in_gap p (w ++ rest) = true ->
    match_at pattern (w ++ rest) = Some (cs, rest) ->
    scan rest ms ->
    scan (p ++ (w ++ rest)) (cs :: ms).

Lemma match_at_pattern_split s cs s' :
  match_at pattern s = Some (cs, s') -> exists w, s = (w ++ s')%string.
Proof.
  unfold match_at. intros H.
  destruct (matcher_sound _ _ _ _ _ H) as (w & s'' & cs'' & -> & _ & Hk).
  injection Hk as _ ->. eauto.
Qed.

Lemma scan_prepend c t ms :
  match_at pattern (String c t) = None -> scan t ms -> scan (String c t) ms.
Proof.
  intros Hn Hs. destruct Hs as [t Ht | p w rest cs ms Hg Hm Hr].
  - apply scan_end. rewrite no_match_anywhere_eq, Hn. exact Ht.
  - apply (scan_hit (String c p) w rest cs ms); auto.
    simpl. rewrite Hn. exact Hg.
Qed.

Lemma finditer_fuel_scan f s :
  String.length s < f -> scan s (finditer_fuel pattern f s).
Proof.
  revert s. induction f as [|f IH]; intros s Hs; [simpl in Hs; lia|].
  cbn [finditer_fuel]. destruct (match_at pattern s) as [[cs s']|] eqn:E.
  - destruct (match_at_pattern_split _ _ _ E) as [w ->].
    apply (scan_hit "" w s' cs); [reflexivity|exact E|].
    apply IH. apply match_at_pattern_shorter in E. lia.
  - destruct s as [|c t].
    + apply scan_end. rewrite no_match_anywhere_eq, E. reflexivity.
    + apply scan_prepend; [exact E|]. apply IH. simpl in Hs. lia.
Qed.

Lemma scan_finditer_fuel s ms :
  scan s ms -> forall f, String.length s < f -> ms = finditer_fuel pattern f s.
Proof.
  induction 1 as [s Hs | p w rest cs ms Hg Hm Hr IH]; intros f Hf.
  - symmetry. apply finditer_fuel_no_match. exact Hs.
  - revert f Hf. induction p as [|c p IHp]; intros f Hf.
    + destruct f as [|f]; [simpl in Hf; lia|].
      cbn [finditer_fuel]. simpl. rewrite Hm. f_equal. apply IH.
      apply match_at_pattern_shorter in Hm. simpl in Hf. lia.
    + simpl in Hg. destruct (match_at pattern (String c (p ++ w ++ rest))) eqn:E;
        [discriminate|].
      destruct f as [|f]; [simpl in Hf; lia|].
      cbn [finditer_fuel]. simpl. simpl in E. rewrite E.
      apply IHp; [exact Hg|]. simpl in Hf. lia.
Qed.

(** [finditer] lists exactly the scan of the text: it is one, and the only
    one. *)
Lemma finditer_scan s : scan s (finditer pattern s).
Proof. apply finditer_fuel_scan. lia. Qed.

Lemma scan_unique s ms : scan s ms -> ms = finditer pattern s.
Proof. intros H. apply (scan_finditer_fuel _ _ H). lia. Qed.

Lemma row_matches_finditer r : row_matches r = finditer pattern (row_text r).
Proof.
  unfold row_matches. destruct (String.eqb (row_text r) "") eqn:E; [|reflexivity].
  apply String.eqb_eq in E. rewrite E. vm_compute. reflexivity.
Qed.

Lemma map_exc_Forall2 {A B} (f : A -> exc B) l ys :
  map_exc f l = Ok ys -> Forall2 (fun x y => f x = Ok y) l ys.
Proof.
  revert ys. induction l as [|x l IH]; intros ys H; simpl in H.
  - injection H as <-. constructor.
  - destruct (f x) as [y|e] eqn:Ex; [|discriminate]. simpl in H.
    destruct (map_exc f l) as [ys'|e]; [|discriminate]. simpl in H.
    injection H as <-. constructor; auto.
Qed.

Lemma row_records_ok r :
  exists recs, map_exc record_of_match (row_matches r) = Ok recs.
Proof.
  apply map_exc_ok. intros cs Hcs.
  destruct (finditer_pattern_captures _ _ (row_matches_in _ _ Hcs))
    as (d1 & d2 & t & a & b & -> & _).
  eexists. apply record_of_match_groups.
Qed.

(** ** Claims *)

(** The point and two decimals that end an amount token. *)
Definition dec_tail (x y : ascii) : string := String "." (String x (String y EmptyString)).

Definition record_keys : list string :=
  ["Post Date"; "Value Date"; "Details"; "Debit"; "Credit"; "Balance"].

Definition scenario_tables : tables_data :=
  mk_tables [mk_table 1 [one_cell_row "15/03/24 15/03/24 CREDIT 2,500.00 10,000.00Cr"]].

Definition scenario_record : pyrecord :=
  [("Post Date", PStr "15/03/24"); ("Value Date", PStr "15/03/24");
   ("Details", PStr "CREDIT"); ("Debit", PStr ""); ("Credit", PStr "2500.00");
   ("Balance", PStr "10000.00")].

(** C1: the one-cell scenario row gives exactly the stated record; and
    every record is the one [record_of_match] builds from a match of its
    own row's text, whose Balance, and Debit or Credit when set, are the
    captured balance and amount tokens with their commas removed and their
    point and both decimals kept as they are. *)
Theorem C1_scenario_and_amounts :
  collect_records scenario_tables = Ok [scenario_record] /\
  (forall td recs rec,
     collect_records td = Ok recs -> In rec recs ->
     exists t r cs tt ipa xa ya ipb xb yb,
       In t (tables td) /\ In r (data t) /\ In cs (row_matches r) /\
       record_of_match cs = Ok rec /\
       group_lookup 3 cs = Some tt /\
       group_lookup 4 cs = Some (ipa ++ dec_tail xa ya)%string /\
       group_lookup 5 cs = Some (ipb ++ dec_tail xb yb)%string /\
       str_all is_digit (remove_commas ipa) = true /\
       str_all is_digit (remove_commas ipb) = true /\
       dict_lookup "Balance" rec = Some (PStr (remove_commas ipb ++ dec_tail xb yb)) /\
       dict_lookup "Debit" rec =
         Some (PStr (if String.eqb (py_upper tt) "DEBIT"
                     then remove_commas ipa ++ dec_tail xa ya else "")) /\
       dict_lookup "Credit" rec =
         Some (PStr (if String.eqb (py_upper tt) "CREDIT"
                     then remove_commas ipa ++ dec_tail xa ya else ""))).
Proof.
  split; [vm_compute; reflexivity|].
  intros td recs rec H Hin.
  destruct (collected_record_in_row _ _ _ H Hin)
    as (t & r & d1 & d2 & tt & a & b & Ht & Hr & Hm & Hrec & Ha & Hb).
  destruct Ha as (ipa & xa & ya & -> & _ & Hipa & Hxa & Hya).
  destruct Hb as (ipb & xb & yb & -> & _ & Hipb & Hxb & Hyb).
  exists t, r, [(5, (ipb ++ dec_tail xb yb)%string); (4, (ipa ++ dec_tail xa ya)%string);
                (3, tt); (2, d2); (1, d1)], tt, ipa, xa, ya, ipb, xb, yb.
  rewrite record_of_match_groups in Hrec. injection Hrec as <-.
  rewrite record_of_match_groups.
  unfold dec_tail in *.
  rewrite !remove_commas_token by assumption.
  repeat split; auto using remove_commas_digits.
Qed.

Lemma C1_witness :
  collect_records scenario_tables = Ok [scenario_record] /\
  exists t r cs tt ipa xa ya ipb xb yb,
    In t (tables scenario_tables) /\ In r (data t) /\ In cs (row_matches r) /\
    record_of_match cs = Ok scenario_record /\
    group_lookup 3 cs = Some tt /\
    group_lookup 4 cs = Some (ipa ++ dec_tail xa ya)%string /\
    group_lookup 5 cs = Some (ipb ++ dec_tail xb yb)%string /\
    str_all is_digit (remove_commas ipa) = true /\
    str_all is_digit (remove_commas ipb) = true /\
    dict_lookup "Balance" scenario_record = Some (PStr (remove_commas ipb ++ dec_tail xb yb)) /\
    dict_lookup "Debit" scenario_record =
      Some (PStr (if String.eqb (py_upper tt) "DEBIT"
                  then remove_commas ipa ++ dec_tail xa ya else "")) /\
    dict_lookup "Credit" scenario_record =
      Some (PStr (if String.eqb (py_upper tt) "CREDIT"
                  then remove_commas ipa ++ dec_tail xa ya else "")).
Proof.
  assert (H : collect_records scenario_tables = Ok [scenario_record])
    by (vm_compute; reflexivity).
  split; [exact H|].
  exact (proj2 C1_scenario_and_amounts scenario_tables [scenario_record] scenario_record
           H (or_introl eq_refl)).
Defined.

(** C2: every record is built from a match of its own row's text with type
    token [t] and amount token [a]: Debit is [a] without commas when
    [t.upper()] is exactly "DEBIT" and empty otherwise, Credit likewise for
    "CREDIT"; so at most one of them is non-empty, and any other token
    leaves both empty. *)
Theorem C2_debit_credit_exclusive :
  forall td recs rec,
    collect_records td = Ok recs -> In rec recs ->
    exists tb r cs t a,
      In tb (tables td) /\ In r (data tb) /\ In cs (row_matches r) /\
      record_of_match cs = Ok rec /\
      group_lookup 3 cs = Some t /\ group_lookup 4 cs = Some a /\
      dict_lookup "Details" rec = Some (PStr (py_upper t)) /\
      dict_lookup "Debit" rec =
        Some (PStr (if String.eqb (py_upper t) "DEBIT" then remove_commas a else "")) /\
      dict_lookup "Credit" rec =
        Some (PStr (if String.eqb (py_upper t) "CREDIT" then remove_commas a else "")) /\
      (dict_lookup "Debit" rec = Some (PStr "") \/ dict_lookup "Credit" rec = Some (PStr "")).
Proof.
  intros td recs rec H Hin.
  destruct (collected_record_in_row _ _ _ H Hin)
    as (tb & r & d1 & d2 & t & a & b & Ht & Hr & Hm & Hrec & _ & _).
  exists tb, r, [(5, b); (4, a); (3, t); (2, d2); (1, d1)], t, a.
  rewrite record_of_match_groups in Hrec. injection Hrec as <-.
  rewrite record_of_match_groups.
  repeat split; auto.
  simpl. destruct (String.eqb (py_upper t) "DEBIT") eqn:Ed; [|auto].
  right. apply String.eqb_eq in Ed. rewrite Ed. reflexivity.
Qed.

Lemma C2_witness :
  exists tb r cs t a,
    In tb (tables scenario_tables) /\ In r (data tb) /\ In cs (row_matches r) /\
    record_of_match cs = Ok scenario_record /\
    group_lookup 3 cs = Some t /\ group_lookup 4 cs = Some a /\
    dict_lookup "Details" scenario_record = Some (PStr (py_upper t)) /\
    dict_lookup "Debit" scenario_record =
      Some (PStr (if String.eqb (py_upper t) "DEBIT" then remove_commas a else "")) /\
    dict_lookup "Credit" scenario_record =
      Some (PStr (if String.eqb (py_upper t) "CREDIT" then remove_commas a else "")) /\
    (dict_lookup "Debit" scenario_record = Some (PStr "") \/
     dict_lookup "Credit" scenario_record = Some (PStr "")).
Proof.
  apply (C2_debit_credit_exclusive scenario_tables [scenario_record] scenario_record).
  - vm_compute. reflexivity.
  - simpl. auto.
Defined.

Fixpoint str_exists (p : ascii -> bool) (s : string) : bool :=
  match s with
  | EmptyString => false
  | String c t => p c || str_exists p t
  end.

(** The amount token as the spec words describe it: one or more digits,
    possibly grouped with commas, then a point and exactly two digits. *)
Definition spec_amount_token (a : string) : Prop :=
  exists ip x y,
    a = (ip ++ dec_tail x y)%string /\
    str_all is_digit_or_comma ip = true /\ str_exists is_digit ip = true /\
    is_digit x = true /\ is_digit y = true.

Definition comma_only_text : string := "01/01/24 01/01/24 X ,.00 ,.00Dr".

Lemma dec_tail_inj ip ip' x y x' y' :
  (ip ++ dec_tail x y)%string = (ip' ++ dec_tail x' y')%string ->
  ip = ip' /\ x = x' /\ y = y'.
Proof.
  unfold dec_tail. intros H.
  assert (Hl : String.length ip = String.length ip').
  { apply (f_equal String.length) in H. rewrite !length_app_str in H. simpl in H. lia. }
  revert ip' Hl H. induction ip as [|c ip IH]; intros [|c' ip'] Hl H;
    simpl in Hl; try discriminate.
  - simpl in H. injection H as -> ->. auto.
  - simpl in H. injection H as -> H. injection Hl as Hl.
    destruct (IH ip' Hl H) as (-> & -> & ->). auto.
Qed.

(** C4 (counterexample): the amount class [[\d,]+] also accepts a run of
    commas with no digit at all: in this text the captured amount is
    ",.00", which is not "one or more digits" before the point. *)
Lemma C4_counterexample :
  In [(5, ",.00"); (4, ",.00"); (3, "X"); (2, "01/01/24"); (1, "01/01/24")]
     (finditer pattern comma_only_text) /\
  ~ spec_amount_token ",.00".
Proof.
  split; [vm_compute; auto|].
  intros (ip & x & y & E & _ & Hd & _ & _).
  change ",.00" with ("," ++ dec_tail "0" "0")%string in E.
  apply dec_tail_inj in E as (<- & _ & _).
  discriminate Hd.
Qed.

(** C4 (amended): every amount or balance a match captures is a non-empty
    run of digits and commas (possibly commas only), a literal point and
    exactly two digits. *)
Theorem C4_captured_amount_shape :
  forall text cs a,
    In cs (finditer pattern text) ->
    group_lookup 4 cs = Some a \/ group_lookup 5 cs = Some a ->
    amount_token a.
Proof.
  intros text cs a Hin Hg.
  destruct (finditer_pattern_captures _ _ Hin)
    as (d1 & d2 & t & a' & b' & -> & _ & _ & Ha & Hb).
  simpl in Hg. destruct Hg as [E | E]; injection E as <-; assumption.
Qed.

Lemma C4_witness :
  In [(5, "950.00"); (4, "50.00"); (3, "CREDIT"); (2, "04/01/24"); (1, "03/01/24")]
     (finditer pattern "03/01/24 04/01/24 CREDIT 50.00 950.00Cr") /\
  amount_token "50.00".
Proof.
  assert (H : In [(5, "950.00"); (4, "50.00"); (3, "CREDIT"); (2, "04/01/24"); (1, "03/01/24")]
     (finditer pattern "03/01/24 04/01/24 CREDIT 50.00 950.00Cr")) by (vm_compute; auto).
  split; [exact H|].
  exact (C4_captured_amount_shape _ _ "50.00" H (or_introl eq_refl)).
Defined.

Definition two_match_text : string :=
  "01/01/24 02/01/24 DEBIT 100.00 900.00Dr 03/01/24 04/01/24 CREDIT 50.00 950.00Cr".

Definition debit_record_900 : pyrecord :=
  [("Post Date", PStr "01/01/24"); ("Value Date", PStr "02/01/24");
   ("Details", PStr "DEBIT"); ("Debit", PStr "100.00"); ("Credit", PStr "");
   ("Balance", PStr "900.00")].

Definition credit_record_950 : pyrecord :=
  [("Post Date", PStr "03/01/24"); ("Value Date", PStr "04/01/24");
   ("Details", PStr "CREDIT"); ("Debit", PStr ""); ("Credit", PStr "50.00");
   ("Balance", PStr "950.00")].

(** C5: for every row, the matches [finditer] yields on the row's text are
    all its non-overlapping matches, leftmost first (the scan of the text,
    and the only one), and the row adds one record per match, in order,
    each built from its match; the text with two transaction lines gives
    the DEBIT record then the CREDIT record. *)
Theorem C5_all_matches_of_row :
  (forall r : row,
     scan (row_text r) (row_matches r) /\
     (forall ms, scan (row_text r) ms -> ms = row_matches r) /\
     forall acc, exists recs,
       Forall2 (fun cs rec => record_of_match cs = Ok rec) (row_matches r) recs /\
       process_row acc r = Ok (acc ++ recs)) /\
  row_text (one_cell_row two_match_text) = two_match_text /\
  length (finditer pattern two_match_text) = 2 /\
  collect_records (mk_tables [mk_table 1 [one_cell_row two_match_text]]) =
    Ok [debit_record_900; credit_record_950].
Proof.
  split; [|vm_compute; repeat split; reflexivity].
  intros r. rewrite row_matches_finditer.
  split; [apply finditer_scan|]. split; [apply scan_unique|].
  intros acc. destruct (row_records_ok r) as [recs Hrecs].
  rewrite row_matches_finditer in Hrecs.
  exists recs. split; [exact (map_exc_Forall2 _ _ _ Hrecs)|].
  rewrite process_row_map, row_matches_finditer, Hrecs. reflexivity.
Qed.

Lemma C5_witness :
  finditer pattern (row_text (one_cell_row two_match_text)) =
    row_matches (one_cell_row two_match_text) /\
  exists recs,
    Forall2 (fun cs rec => record_of_match cs = Ok rec)
      (row_matches (one_cell_row two_match_text)) recs /\
    process_row [] (one_cell_row two_match_text) = Ok ([] ++ recs).
Proof.
  destruct (proj1 C5_all_matches_of_row (one_cell_row two_match_text)) as (_ & Hu & Hr).
  split; [apply Hu; apply finditer_scan | apply Hr].
Defined.

Definition m1_row : row := one_cell_row "01/01/24 02/01/24 DEBIT 100.00 900.00Dr".
Definition m2_row : row := one_cell_row "03/01/24 04/01/24 CREDIT 50.00 950.00Cr".
Definition m3_row : row := one_cell_row "05/01/24 06/01/24 DEBIT 10.00 940.00Dr".

Definition m3_record : pyrecord :=
  [("Post Date", PStr "05/01/24"); ("Value Date", PStr "06/01/24");
   ("Details", PStr "DEBIT"); ("Debit", PStr "10.00"); ("Credit", PStr "");
   ("Balance", PStr "940.00")].

(** C7: the records are those of all matches taken table by table, row by
    row within a table and match by match within a row's text, with no
    reordering; for tables [T1; T2] with match m1 in T1 and m2, m3 in T2 the
    records come as [m1; m2; m3]. *)
Theorem C7_output_order :
  (forall td, collect_records td = map_exc record_of_match (all_matches (tables td))) /\
  collect_records (mk_tables [mk_table 1 [m1_row]; mk_table 2 [m2_row; m3_row]]) =
    Ok [debit_record_900; credit_record_950; m3_record].
Proof.
  split.
  - apply collect_records_map.
  - vm_compute. reflexivity.
Qed.

(** C8: on every tables input the normaliser returns a record list and the
    DataFrame of it; no [m.group(...)] it calls a [str] method on is ever
    [None], so nothing raises. *)
Theorem C8_never_raises :
  forall td, exists recs,
    collect_records td = Ok recs /\ process_transactions td = Ok (DataFrame recs).
Proof.
  intros td.
  assert (H : exists recs, collect_records td = Ok recs).
  { rewrite collect_records_map. apply map_exc_ok.
    intros cs Hcs. destruct (all_matches_in _ _ Hcs) as (text & Ht).
    destruct (finditer_pattern_captures _ _ Ht) as (d1 & d2 & t & a & b & -> & _).
    rewrite record_of_match_groups. eauto. }
  destruct H as [recs H]. exists recs. split; [exact H|].
  unfold process_transactions. rewrite H. reflexivity.
Qed.

Definition crore_text : string := "101/01/24 02/01/24 DEBIT 100.00 900.00Crore".

(** C10: the pattern is not anchored at token boundaries: in
    "101/01/24 ... 900.00Crore" no match starts at the first character, the
    match found starts inside "101/01/24" and ends after the "Cr" of
    "Crore", and the row gives exactly the DEBIT record of 01/01/24. *)
Theorem C10_unanchored_match :
  match_at pattern crore_text = None /\
  match_at pattern "01/01/24 02/01/24 DEBIT 100.00 900.00Crore" =
    Some ([(5, "900.00"); (4, "100.00"); (3, "DEBIT"); (2, "02/01/24"); (1, "01/01/24")],
          "ore") /\
  collect_records (mk_tables [mk_table 1 [one_cell_row crore_text]]) =
    Ok [debit_record_900].
Proof. vm_compute. repeat split; reflexivity. Qed.

(** *** Row flattening *)

Lemma str_all_app p (u v : string) :
  str_all p (u ++ v) = str_all p u && str_all p v.
Proof. induction u as [|c u IH]; simpl; [reflexivity|]. rewrite IH, andb_assoc. reflexivity. Qed.

Lemma str_all_rev p s : str_all p (rev_string s) = str_all p s.
Proof.
  induction s as [|c s IH]; simpl; [reflexivity|].
  rewrite str_all_app, IH. simpl. rewrite andb_true_r, andb_comm. reflexivity.
Qed.

Lemma rev_string_empty s : rev_string s = EmptyString -> s = EmptyString.
Proof.
  destruct s as [|c s]; simpl; [auto|]. intros H.
  apply (f_equal String.length) in H. rewrite length_app_str in H. simpl in H. lia.
Qed.

Lemma py_lstrip_all_space s :
  str_all is_space (py_lstrip s) = true -> py_lstrip s = EmptyString.
Proof.
  induction s as [|c s IH]; simpl; [auto|].
  destruct (is_space c) eqn:E; [exact IH|]. simpl. rewrite E. discriminate.
Qed.

Lemma py_lstrip_empty_iff s :
  py_lstrip s = EmptyString <-> str_all is_space s = true.
Proof.
  induction s as [|c s IH]; simpl; [split; auto|].
  destruct (is_space c); simpl; [exact IH|]. split; discriminate.
Qed.

(** [s.strip()] is empty exactly when [s] is empty or all whitespace. *)
Lemma py_strip_empty_iff s :
  py_strip s = EmptyString <-> str_all is_space s = true.
Proof.
  unfold py_strip. rewrite <- py_lstrip_empty_iff. split; intros H.
  - apply rev_string_empty in H.
    apply py_lstrip_empty_iff in H. rewrite str_all_rev in H.
    apply py_lstrip_all_space. exact H.
  - rewrite H. reflexivity.
Qed.

(** The flattened row text as the spec words describe it: the string cells
    that are not empty or all whitespace, in column order, with one space
    between consecutive kept cells; other cells add nothing. *)
Fixpoint flat_spec (cells : list cell) : string :=
  match cells with
  | [] => EmptyString
  | CStr s :: rest =>
      if str_all is_space s then flat_spec rest
      else match flat_spec rest with
           | EmptyString => s
           | t => (s ++ " " ++ t)%string
           end
  | _ :: rest => flat_spec rest
  end.

Lemma keep_cell_str s :
  keep_cell (CStr s) = if str_all is_space s then None else Some s.
Proof.
  unfold keep_cell. destruct (String.eqb (py_strip s) "") eqn:E.
  - apply String.eqb_eq, py_strip_empty_iff in E. rewrite E. reflexivity.
  - destruct (str_all is_space s) eqn:E2; [|reflexivity].
    apply py_strip_empty_iff in E2. rewrite E2 in E. discriminate.
Qed.

Lemma kept_values_cons v cells :
  kept_values (v :: cells) =
  match keep_cell v with
  | Some s => s :: kept_values cells
  | None => kept_values cells
  end.
Proof. reflexivity. Qed.

Lemma kept_values_nonempty cells x :
  In x (kept_values cells) -> x <> EmptyString.
Proof.
  induction cells as [|v cells IH]; [simpl; contradiction|].
  rewrite kept_values_cons.
  destruct v as [s| |]; [rewrite keep_cell_str | exact IH | exact IH]. destruct (str_all is_space s) eqn:E; auto.
  intros [<- | H]; auto. intros ->. discriminate.
Qed.

Lemma py_join_nonempty sep x l :
  x <> EmptyString -> py_join sep (x :: l) <> EmptyString.
Proof.
  intros Hx. destruct l as [|y l]; simpl; [exact Hx|].
  destruct x; [contradiction|]. discriminate.
Qed.

Lemma kept_values_flat cells :
  py_join " " (kept_values cells) = flat_spec cells.
Proof.
  induction cells as [|v cells IH]; [reflexivity|].
  rewrite kept_values_cons.
  destruct v as [s| |]; try exact IH.
  rewrite keep_cell_str. simpl flat_spec. destruct (str_all is_space s) eqn:E; [exact IH|].
  rewrite <- IH.
  destruct (kept_values cells) as [|y l] eqn:Ek; [reflexivity|].
  assert (Hy : y <> EmptyString)
    by (apply (kept_values_nonempty cells); rewrite Ek; simpl; auto).
  pose proof (py_join_nonempty " " y l Hy) as Hj.
  change (py_join " " (s :: y :: l)) with (s ++ " " ++ py_join " " (y :: l))%string.
  destruct (py_join " " (y :: l)); [contradiction|reflexivity].
Qed.

(** C3: the flattened row text is the space-separated concatenation, in
    column order, of the string cells that are neither empty nor all
    whitespace; numbers, nulls and blank strings add nothing, not even a
    separator. *)
Theorem C3_row_text_flattening :
  forall r : row, row_text r = flat_spec (map snd r).
Proof. intros r. apply kept_values_flat. Qed.

(** *** Rows without a match *)

(** A cell that flattening drops: a number, a null, or an empty or
    all-whitespace string. *)
Definition blank_cell (v : cell) : bool :=
  match v with
  | CStr s => str_all is_space s
  | _ => true
  end.

Lemma kept_values_blank cells :
  forallb blank_cell cells = true -> kept_values cells = [].
Proof.
  induction cells as [|v cells IH]; [reflexivity|].
  intros H. simpl in H. apply andb_prop in H as [Hv Hc].
  rewrite kept_values_cons.
  destruct v as [s| |]; [|exact (IH Hc)|exact (IH Hc)].
  rewrite keep_cell_str. simpl in Hv. rewrite Hv. exact (IH Hc).
Qed.

Definition rows_without_match (td : tables_data) : bool :=
  forallb (fun t => forallb (fun r => no_match_anywhere (row_text r)) (data t)) (tables td).

Definition partial_rows : list row :=
  [one_cell_row "Reference ABC 01/01/24";
   one_cell_row "01/01/2024 02/01/2024 DEBIT 100.00 900.00Dr";
   one_cell_row "01/01/24 02/01/24 DEBIT 100.00 900.00";
   one_cell_row "01/01/24 02/01/24 DEBIT 100.00 900.00 Dr"].

Definition blank_row : row :=
  [("Col1", CNum 12); ("Col2", CNull); ("Col3", CStr "   "); ("Col4", CStr "")].

(** C6: a row whose text contains no match of the pattern adds no record
    and raises nothing, wherever it stands among other rows: the records
    already collected pass through unchanged and the remaining rows give
    what they give without it (so tables of such rows give [Ok []]); a row
    whose cells are all numbers, nulls or blank strings is skipped; the
    partial look-alikes (no second date and amounts, four-digit years, no
    Dr/Cr suffix or a space before it) contain no match and give no record,
    also between two matching rows. *)
Theorem C6_no_match_no_record :
  (forall acc r, no_match_anywhere (row_text r) = true -> process_row acc r = Ok acc) /\
  (forall acc rs1 r rs2, no_match_anywhere (row_text r) = true ->
     loop_rows acc (rs1 ++ r :: rs2) = loop_rows acc (rs1 ++ rs2)) /\
  (forall td, rows_without_match td = true -> collect_records td = Ok []) /\
  (forall acc r, forallb blank_cell (map snd r) = true -> process_row acc r = Ok acc) /\
  forallb (fun r => no_match_anywhere (row_text r)) partial_rows = true /\
  collect_records (mk_tables [mk_table 1 (m1_row :: partial_rows ++ [m2_row])]) =
    Ok [debit_record_900; credit_record_950] /\
  collect_records (mk_tables [mk_table 1 [blank_row]]) = Ok [].
Proof.
  assert (Hrow : forall r, no_match_anywhere (row_text r) = true -> row_matches r = []).
  { intros r H. rewrite row_matches_finditer. apply finditer_fuel_no_match. exact H. }
  split; [|split; [|split; [|split; [|split; [|split]]]]].
  - intros acc r H. rewrite process_row_map, (Hrow r H). simpl.
    rewrite app_nil_r. reflexivity.
  - intros acc rs1 r rs2 H. rewrite !loop_rows_map, !flat_map_app. simpl.
    rewrite (Hrow r H). reflexivity.
  - intros td H. rewrite collect_records_map.
    assert (E : all_matches (tables td) = []).
    { unfold rows_without_match in H. unfold all_matches.
      induction (tables td) as [|t ts IH]; [reflexivity|].
      simpl in H. apply andb_prop in H as [Ht Hts]. simpl.
      rewrite (IH Hts), app_nil_r.
      induction (data t) as [|r rs IHr]; [reflexivity|].
      simpl in Ht. apply andb_prop in Ht as [Hr Hrs]. simpl.
      rewrite (IHr Hrs), (Hrow r Hr). reflexivity. }
    rewrite E. reflexivity.
  - intros acc r H. unfold process_row, row_text.
    rewrite (kept_values_blank _ H). reflexivity.
  - vm_compute. reflexivity.
  - vm_compute. reflexivity.
  - vm_compute. reflexivity.
Qed.

Definition reference_row : row := one_cell_row "Reference ABC 01/01/24".

Definition reference_tables : tables_data :=
  mk_tables [mk_table 1 [one_cell_row "Reference ABC 01/01/24"]].

Lemma C6_witness :
  process_row [debit_record_900] reference_row = Ok [debit_record_900] /\
  loop_rows [] [m1_row; reference_row; m2_row] = loop_rows [] [m1_row; m2_row] /\
  process_row [] blank_row = Ok [].
Proof.
  split; [|split].
  - apply (proj1 C6_no_match_no_record). vm_compute. reflexivity.
  - apply (proj1 (proj2 C6_no_match_no_record) [] [m1_row] reference_row [m2_row]).
    vm_compute. reflexivity.
  - apply (proj1 (proj2 (proj2 (proj2 C6_no_match_no_record)))).
    vm_compute. reflexivity.
Defined.

(** *** Columns of the records and of the DataFrame *)

Lemma add_keys_record_keys_nil : add_keys [] record_keys = record_keys.
Proof. reflexivity. Qed.

Lemma add_keys_record_keys : add_keys record_keys record_keys = record_keys.
Proof. reflexivity. Qed.

Lemma fold_columns recs :
  Forall (fun rec : pyrecord => map fst rec = record_keys) recs ->
  fold_left (fun cols d => add_keys cols (map fst d)) recs record_keys = record_keys.
Proof.
  induction recs as [|rec recs IH]; intros H; [reflexivity|].
  inversion H as [|? ? Hk Hrest]; subst. simpl. rewrite Hk, add_keys_record_keys.
  exact (IH Hrest).
Qed.

Lemma DataFrame_rows recs :
  df_rows (DataFrame recs) =
  map (fun d => map (fun c => match dict_lookup c d with
                              | Some v => v
                              | None => PNaN
                              end) (df_columns (DataFrame recs))) recs.
Proof. reflexivity. Qed.

Lemma collected_keys td recs :
  collect_records td = Ok recs -> Forall (fun rec : pyrecord => map fst rec = record_keys) recs.
Proof.
  intros H. apply Forall_forall. intros rec Hin.
  destruct (collected_record _ _ _ H Hin) as (text & d1 & d2 & t & a & b & _ & _ & _ & ->).
  reflexivity.
Qed.

(** C9 (counterexample): when no row matches, [pd.DataFrame([])] has no
    columns at all, so the table and its CSV/spreadsheet grid do not have
    the six columns. *)
Lemma C9_counterexample :
  process_transactions reference_tables = Ok {| df_columns := []; df_rows := [] |} /\
  export_grid {| df_columns := []; df_rows := [] |} = [[]].
Proof. split; vm_compute; reflexivity. Qed.

(** C9 (amended): every record has exactly the keys Post Date, Value Date,
    Details, Debit, Credit, Balance in this order; when at least one record
    is emitted, the DataFrame has exactly these columns in this order and
    the exported grid is that header followed by rows of six cells, with no
    index column; with no record the DataFrame has no columns. *)
Theorem C9_record_columns :
  forall td recs,
    collect_records td = Ok recs ->
    Forall (fun rec : pyrecord => map fst rec = record_keys) recs /\
    (recs <> [] ->
       df_columns (DataFrame recs) = record_keys /\
       hd [] (export_grid (DataFrame recs)) = record_keys /\
       Forall (fun line => length line = 6) (export_grid (DataFrame recs))) /\
    (recs = [] -> df_columns (DataFrame recs) = []).
Proof.
  intros td recs H.
  pose proof (collected_keys _ _ H) as Hk.
  split; [exact Hk|]. split.
  - intros Hne. destruct recs as [|rec rest]; [contradiction|].
    inversion Hk as [|? ? Hrec Hrest]; subst.
    assert (Hcols : df_columns (DataFrame (rec :: rest)) = record_keys).
    { simpl. rewrite Hrec, add_keys_record_keys_nil. exact (fold_columns _ Hrest). }
    split; [exact Hcols|]. split.
    + unfold export_grid. simpl hd. exact Hcols.
    + unfold export_grid. constructor; [rewrite Hcols; reflexivity|].
      apply Forall_forall. intros line Hl.
      apply in_map_iff in Hl as (row' & <- & Hr).
      rewrite DataFrame_rows, Hcols in Hr.
      apply in_map_iff in Hr as (d & <- & _).
      rewrite !length_map. reflexivity.
  - intros ->. reflexivity.
Qed.

Lemma C9_witness :
  Forall (fun rec : pyrecord => map fst rec = record_keys) [scenario_record] /\
  ([scenario_record] <> [] ->
     df_columns (DataFrame [scenario_record]) = record_keys /\
     hd [] (export_grid (DataFrame [scenario_record])) = record_keys /\
     Forall (fun line => length line = 6) (export_grid (DataFrame [scenario_record]))) /\
  ([scenario_record] = [] -> df_columns (DataFrame [scenario_record]) = []).
Proof.
  apply (C9_record_columns scenario_tables [scenario_record]). vm_compute. reflexivity.
Defined.

(** ** [extract_tables_from_pdf] and [main]

    The PDF library is outside the repository: what it returns is an input
    of the model.  [doc_table] is a table of [result.document.tables], with
    the outcome of its [export_to_dataframe()]; [pdf_env] gathers the
    outcome of the set-up calls (model copy, converter construction,
    creation of the temporary file), of writing the upload into that file,
    of [converter.convert] and of [os.unlink], an error standing for the
    message of the exception raised.  The file system is reduced to the set
    of paths the function creates or deletes: the temporary PDF file. *)

From Stdlib Require Import DecimalString.

Definition py_str_int (n : Z) : string := NilEmpty.string_of_int (Z.to_int n).

(** A DataFrame as [export_to_dataframe()] returns it: its columns and its
    rows as [to_dict('records')] gives them. *)
Record frame := {
  fr_columns : list string;
  fr_rows : list row
}.

Record doc_table := {
  export_to_dataframe : sum frame string
}.

Record pdf_env := {
  setup_error : option string;
  write_error : option string;
  convert_result : sum (list doc_table) string;
  unlink_error : option string
}.

Definition error_tables (msg : string) : tables_data :=
  {| number_of_tables := 0; tables := [];
     error := Some ("Error processing PDF: " ++ msg)%string |}.

(** [table_info] for the table at [table_index]; [numerical_summary] and
    [location] are not modelled, nothing downstream reads them. *)
Definition table_info (table_index : nat) (df : frame) : table :=
  {| table_number := Z.of_nat table_index + 1;
     columns := fr_columns df;
     row_count := Z.of_nat (length (fr_rows df));
     data := fr_rows df |}.

(** The [for table_index, table in enumerate(...)] loop: the tables kept,
    and the [st.error] messages shown for the others. *)
Fixpoint shape_tables (table_index : nat) (ts : list doc_table)
    : list table * list string :=
  match ts with
  | [] => ([], [])
  | t :: rest =>
      let '(infos, errs) := shape_tables (S table_index) rest in
      match export_to_dataframe t with
      | inl df => (table_info table_index df :: infos, errs)
      | inr msg =>
          (infos, ("Error processing table " ++ py_str_int (Z.of_nat table_index + 1)
                   ++ ": " ++ msg)%string :: errs)
      end
  end.

(** The [finally: os.unlink(tmp_file_path)] clause, run when the inner
    [try] ends with the dict [td] or raises: the file is removed; if
    [os.unlink] raises instead, its exception replaces the outcome and
    reaches the outer [except], and the file stays. *)
Definition finally_unlink (env : pdf_env) (fs : list string) (tmp : string)
    (td : tables_data) (errs : list string) : tables_data * list string * list string :=
  match unlink_error env with
  | Some msg => (error_tables msg, errs, tmp :: fs)
  | None => (td, errs, remove string_dec tmp (tmp :: fs))
  end.

(** [extract_tables_from_pdf]: the returned dict, the [st.error] messages
    shown on the way, and the paths present afterwards.  [tmp] is the fresh
    name [NamedTemporaryFile] picks.  The file exists from the
    [NamedTemporaryFile(delete=False)] call on; an exception of the write
    goes to the outer [except] before the [try ... finally] is entered, so
    the file is not removed. *)
Definition extract_tables_from_pdf (env : pdf_env) (fs : list string) (tmp : string)
    : tables_data * list string * list string :=
  match setup_error env with
  | Some msg => (error_tables msg, [], fs)
  | None =>
      match write_error env with
      | Some msg => (error_tables msg, [], tmp :: fs)
      | None =>
          match convert_result env with
          | inr msg => finally_unlink env fs tmp (error_tables msg) []
          | inl doc_tables =>
              let '(infos, errs) := shape_tables 0 doc_tables in
              finally_unlink env fs tmp
                {| number_of_tables := Z.of_nat (length doc_tables);
                   tables := infos; error := None |} errs
          end
      end
  end.

(** What [main] shows, in order. *)
Inductive event :=
| EWrite (s : string)
| EError (s : string)
| EDataframe (df : dataframe)
| EDownload (label file_name mime : string) (grid : list (list string)).

(** [main] once a file is uploaded: the events, and the paths left. *)
Definition main (env : pdf_env) (fs : list string) (tmp : string)
    : exc (list event) * list string :=
  let '(td, errs, fs') := extract_tables_from_pdf env fs tmp in
  let shown := map EError errs in
  (if (0 <? number_of_tables td)%Z then
     (df <- process_transactions td ;;
      Ok (shown ++
          [EWrite ("Found " ++ py_str_int (number_of_tables td) ++ " tables")%string;
           EDataframe df;
           EDownload "Download as CSV" "transactions.csv" "text/csv" (export_grid df);
           EDownload "Download as Excel" "transactions.xlsx" "application/vnd.ms-excel"
             (export_grid df)]))
   else
     Ok (shown ++
         EError "No tables found in the PDF or error occurred during processing" ::
         match error td with
         | Some e => [EError e]
         | None => []
         end), fs').

(** *** Properties of the extraction and of [main] *)

From Stdlib Require Import Sorting.Sorted.

Lemma shape_tables_cons i t rest :
  shape_tables i (t :: rest) =
  let '(infos, errs) := shape_tables (S i) rest in
  match export_to_dataframe t with
  | inl df => (table_info i df :: infos, errs)
  | inr msg =>
      (infos, ("Error processing table " ++ py_str_int (Z.of_nat i + 1)
               ++ ": " ++ msg)%string :: errs)
  end.
Proof. reflexivity. Qed.

Lemma shape_tables_length i ts :
  length (fst (shape_tables i ts)) + length (snd (shape_tables i ts)) = length ts.
Proof.
  revert i. induction ts as [|t rest IH]; intros i; [reflexivity|].
  rewrite shape_tables_cons. specialize (IH (S i)).
  destruct (shape_tables (S i) rest) as [infos errs].
  destruct (export_to_dataframe t); simpl in *; lia.
Qed.

Lemma shape_tables_no_errors i ts :
  snd (shape_tables i ts) = [] <->
  forall t, In t ts -> exists df, export_to_dataframe t = inl df.
Proof.
  revert i. induction ts as [|t rest IH]; intros i;
    [simpl; split; [contradiction|auto]|].
  rewrite shape_tables_cons. specialize (IH (S i)).
  destruct (shape_tables (S i) rest) as [infos errs]. simpl in IH.
  destruct (export_to_dataframe t) as [df|msg] eqn:E; simpl.
  - rewrite IH. split.
    + intros H t' [<- | Ht']; eauto.
    + intros H t' Ht'. apply H. auto.
  - split; [discriminate|]. intros H.
    destruct (H t (or_introl eq_refl)) as [df Hdf]. congruence.
Qed.

Lemma shape_tables_origin i ts tinfo :
  In tinfo (fst (shape_tables i ts)) ->
  exists k dt df, nth_error ts k = Some dt /\ export_to_dataframe dt = inl df /\
                  tinfo = table_info (i + k) df.
Proof.
  revert i. induction ts as [|t rest IH]; intros i H; [contradiction|].
  rewrite shape_tables_cons in H. specialize (IH (S i)).
  destruct (shape_tables (S i) rest) as [infos errs]. simpl in IH.
  destruct (export_to_dataframe t) as [df|msg] eqn:E; simpl in H.
  - destruct H as [<- | H].
    + exists 0, t, df. rewrite Nat.add_0_r. auto.
    + destruct (IH H) as (k & dt & df' & Hk & He & ->).
      exists (S k), dt, df'. rewrite Nat.add_succ_r. auto.
  - destruct (IH H) as (k & dt & df' & Hk & He & ->).
    exists (S k), dt, df'. rewrite Nat.add_succ_r. auto.
Qed.

Lemma shape_tables_numbers_above i ts :
  Forall (fun n => (Z.of_nat i < n)%Z) (map table_number (fst (shape_tables i ts))).
Proof.
  apply Forall_forall. intros n Hn. apply in_map_iff in Hn as (tinfo & <- & Hin).
  destruct (shape_tables_origin _ _ _ Hin) as (k & dt & df & _ & _ & ->).
  simpl. lia.
Qed.


Definition sample_env : pdf_env :=
  {| setup_error := None;
     write_error := None;
     convert_result := inl [{| export_to_dataframe := inl {| fr_columns := ["Col1"];
                                 fr_rows := [one_cell_row "x"] |} |};
                            {| export_to_dataframe := inr "bad table" |}];
     unlink_error := None |}.



(** X3: after a successful conversion, [number_of_tables] counts every
    table of the document, those whose export failed included: it is the
    number of tables kept plus the number of "Error processing table"
    messages, and equals the number kept exactly when every export
    succeeds. *)
Theorem extract_table_count :
  forall env fs tmp dts,
    setup_error env = None -> write_error env = None ->
    convert_result env = inl dts -> unlink_error env = None ->
    let '(td, errs, _) := extract_tables_from_pdf env fs tmp in
    number_of_tables td = Z.of_nat (length (tables td) + length errs) /\
    error td = None /\
    (number_of_tables td = Z.of_nat (length (tables td)) <->
     forall t, In t dts -> exists df, export_to_dataframe t = inl df).
Proof.
  intros env fs tmp dts H1 Hw H2 Hu.
  unfold extract_tables_from_pdf, finally_unlink. rewrite H1, Hw, H2, Hu.
  pose proof (shape_tables_length 0 dts) as Hl.
  pose proof (shape_tables_no_errors 0 dts) as He.
  destruct (shape_tables 0 dts) as [infos errs]. simpl in *.
  split; [f_equal; lia|]. split; [reflexivity|].
  rewrite <- He. split.
  - intros E. apply Nat2Z.inj in E. destruct errs; [reflexivity|]. simpl in Hl. lia.
  - intros ->. simpl in Hl. f_equal. lia.
Qed.

Lemma extract_table_count_witness :
  let '(td, errs, _) := extract_tables_from_pdf sample_env [] "/tmp/tmp1.pdf" in
  number_of_tables td = Z.of_nat (length (tables td) + length errs) /\
  error td = None /\
  (number_of_tables td = Z.of_nat (length (tables td)) <->
   forall t, In t [{| export_to_dataframe := inl {| fr_columns := ["Col1"];
                        fr_rows := [one_cell_row "x"] |} |};
                   {| export_to_dataframe := inr "bad table" |}] ->
   exists df, export_to_dataframe t = inl df).
Proof. apply extract_table_count; reflexivity. Defined.

(** X4: the tables kept are, in document order, those whose export
    succeeded: their [table_number]s strictly increase, and each is the
    table's 1-based position in the document, with the export's columns,
    its rows as [data] and their count as [row_count]. *)
Theorem extract_table_numbers :
  forall env fs tmp dts,
    setup_error env = None -> write_error env = None ->
    convert_result env = inl dts -> unlink_error env = None ->
    let td := fst (fst (extract_tables_from_pdf env fs tmp)) in
    StronglySorted Z.lt (map table_number (tables td)) /\
    forall tinfo, In tinfo (tables td) ->
      exists k dt df, nth_error dts k = Some dt /\ export_to_dataframe dt = inl df /\
        table_number tinfo = (Z.of_nat k + 1)%Z /\ columns tinfo = fr_columns df /\
        data tinfo = fr_rows df /\ row_count tinfo = Z.of_nat (length (fr_rows df)).
Proof.
  intros env fs tmp dts H1 Hw H2 Hu.
  unfold extract_tables_from_pdf, finally_unlink. rewrite H1, Hw, H2, Hu.
  assert (Hs : forall i, StronglySorted Z.lt (map table_number (fst (shape_tables i dts)))).
  { clear H1 H2. induction dts as [|t rest IH]; intros i; [constructor|].
    rewrite shape_tables_cons. pose proof (shape_tables_numbers_above (S i) rest) as Ha.
    specialize (IH (S i)).
    destruct (shape_tables (S i) rest) as [infos errs]. simpl in IH, Ha.
    destruct (export_to_dataframe t); simpl; [|exact IH].
    constructor; [exact IH|]. eapply Forall_impl; [|exact Ha]. simpl. intros n Hn. lia. }
  pose proof (Hs 0) as Hs0. pose proof (shape_tables_origin 0 dts) as Ho.
  destruct (shape_tables 0 dts) as [infos errs]. simpl in *.
  split; [exact Hs0|].
  intros tinfo Hin. destruct (Ho tinfo Hin) as (k & dt & df & Hk & He & ->).
  exists k, dt, df. simpl. repeat split; auto.
Qed.

Lemma extract_table_numbers_witness :
  let td := fst (fst (extract_tables_from_pdf sample_env [] "/tmp/tmp1.pdf")) in
  StronglySorted Z.lt (map table_number (tables td)) /\
  forall tinfo, In tinfo (tables td) ->
    exists k dt df,
      nth_error [{| export_to_dataframe := inl {| fr_columns := ["Col1"];
                      fr_rows := [one_cell_row "x"] |} |};
                 {| export_to_dataframe := inr "bad table" |}] k = Some dt /\
      export_to_dataframe dt = inl df /\
      table_number tinfo = (Z.of_nat k + 1)%Z /\ columns tinfo = fr_columns df /\
      data tinfo = fr_rows df /\ row_count tinfo = Z.of_nat (length (fr_rows df)).
Proof. apply extract_table_numbers; reflexivity. Defined.

Lemma collect_records_total td : exists recs, collect_records td = Ok recs.
Proof.
  rewrite collect_records_map. apply map_exc_ok.
  intros cs Hcs. destruct (all_matches_in _ _ Hcs) as (text & Ht).
  destruct (finditer_pattern_captures _ _ Ht) as (d1 & d2 & t & a & b & -> & _).
  rewrite record_of_match_groups. eauto.
Qed.

(** X6: when the document converts with at least one table, [main] shows
    the per-table export errors, then "Found n tables" with n the number of
    tables of the document, the DataFrame of the normalised records, and
    CSV and Excel downloads of that same DataFrame's grid. *)
Theorem main_found_tables :
  forall env fs tmp dts,
    setup_error env = None -> write_error env = None ->
    convert_result env = inl dts -> unlink_error env = None -> dts <> [] ->
    let '(td, errs, _) := extract_tables_from_pdf env fs tmp in
    exists recs,
      collect_records td = Ok recs /\
      fst (main env fs tmp) =
        Ok (map EError errs ++
            [EWrite ("Found " ++ py_str_int (Z.of_nat (length dts)) ++ " tables");
             EDataframe (DataFrame recs);
             EDownload "Download as CSV" "transactions.csv" "text/csv"
               (export_grid (DataFrame recs));
             EDownload "Download as Excel" "transactions.xlsx" "application/vnd.ms-excel"
               (export_grid (DataFrame recs))]).
Proof.
  intros env fs tmp dts H1 Hw H2 Hu Hne.
  unfold main. destruct (extract_tables_from_pdf env fs tmp) as [[td errs] fs'] eqn:E.
  assert (Hn : number_of_tables td = Z.of_nat (length dts)).
  { unfold extract_tables_from_pdf, finally_unlink in E. rewrite H1, Hw, H2, Hu in E.
    destruct (shape_tables 0 dts). injection E as <- _ _. reflexivity. }
  destruct (collect_records_total td) as [recs Hr].
  exists recs. split; [exact Hr|]. rewrite Hn.
  destruct dts as [|t rest]; [contradiction|].
  simpl length. rewrite Nat2Z.inj_succ. simpl.
  replace (0 <? Z.succ (Z.of_nat (length rest)))%Z with true
    by (symmetry; apply Z.ltb_lt; lia).
  unfold process_transactions. rewrite Hr. reflexivity.
Qed.

Lemma main_found_tables_witness :
  let '(td, errs, _) := extract_tables_from_pdf sample_env [] "/tmp/tmp1.pdf" in
  exists recs,
    collect_records td = Ok recs /\
    fst (main sample_env [] "/tmp/tmp1.pdf") =
      Ok (map EError errs ++
          [EWrite ("Found " ++ py_str_int (Z.of_nat 2) ++ " tables");
           EDataframe (DataFrame recs);
           EDownload "Download as CSV" "transactions.csv" "text/csv"
             (export_grid (DataFrame recs));
           EDownload "Download as Excel" "transactions.xlsx" "application/vnd.ms-excel"
             (export_grid (DataFrame recs))]).
Proof.
  apply (main_found_tables sample_env [] "/tmp/tmp1.pdf"
           [{| export_to_dataframe := inl {| fr_columns := ["Col1"];
                                             fr_rows := [one_cell_row "x"] |} |};
            {| export_to_dataframe := inr "bad table" |}]);
    [reflexivity | reflexivity | reflexivity | reflexivity | discriminate].
Defined.

Lemma shape_tables_all_fail i ts :
  (forall t, In t ts -> exists msg, export_to_dataframe t = inr msg) ->
  fst (shape_tables i ts) = [].
Proof.
  revert i. induction ts as [|t rest IH]; intros i H; [reflexivity|].
  rewrite shape_tables_cons. specialize (IH (S i) (fun t' Ht' => H t' (or_intror Ht'))).
  destruct (shape_tables (S i) rest) as [infos errs]. simpl in IH.
  destruct (H t (or_introl eq_refl)) as [msg ->]. simpl. exact IH.
Qed.

(** X7: when every table of a non-empty document fails to export, [main]
    does not report "No tables found": after one error per table it shows
    "Found n tables" and an empty DataFrame with no columns, and the
    downloads hold an empty header line only. *)
Theorem main_all_exports_fail :
  forall env fs tmp dts,
    setup_error env = None -> write_error env = None ->
    convert_result env = inl dts -> unlink_error env = None -> dts <> [] ->
    (forall t, In t dts -> exists msg, export_to_dataframe t = inr msg) ->
    let '(td, errs, _) := extract_tables_from_pdf env fs tmp in
    length errs = length dts /\
    fst (main env fs tmp) =
      Ok (map EError errs ++
          [EWrite ("Found " ++ py_str_int (Z.of_nat (length dts)) ++ " tables");
           EDataframe {| df_columns := []; df_rows := [] |};
           EDownload "Download as CSV" "transactions.csv" "text/csv" [[]];
           EDownload "Download as Excel" "transactions.xlsx" "application/vnd.ms-excel" [[]]]).
Proof.
  intros env fs tmp dts H1 Hw H2 Hu Hne Hfail.
  pose proof (main_found_tables env fs tmp dts H1 Hw H2 Hu Hne) as Hm.
  pose proof (shape_tables_all_fail 0 dts Hfail) as Hf.
  pose proof (shape_tables_length 0 dts) as Hl.
  destruct (extract_tables_from_pdf env fs tmp) as [[td errs] fs'] eqn:E.
  assert (Ht : tables td = [] /\ errs = snd (shape_tables 0 dts)).
  { unfold extract_tables_from_pdf, finally_unlink in E. rewrite H1, Hw, H2, Hu in E.
    destruct (shape_tables 0 dts) as [infos errs']. simpl in Hf. subst.
    injection E as <- <- _. auto. }
  destruct Ht as [Ht ->]. rewrite Hf in Hl. simpl in Hl.
  split; [exact Hl|].
  destruct Hm as (recs & Hr & ->).
  unfold collect_records in Hr. rewrite Ht in Hr. injection Hr as <-. reflexivity.
Qed.

Definition broken_env : pdf_env :=
  {| setup_error := None;
     write_error := None;
     convert_result := inl [{| export_to_dataframe := inr "bad table" |}];
     unlink_error := None |}.

Lemma main_all_exports_fail_witness :
  let '(td, errs, _) := extract_tables_from_pdf broken_env [] "/tmp/tmp1.pdf" in
  length errs = 1 /\
  fst (main broken_env [] "/tmp/tmp1.pdf") =
    Ok (map EError errs ++
        [EWrite ("Found " ++ py_str_int (Z.of_nat 1) ++ " tables");
         EDataframe {| df_columns := []; df_rows := [] |};
         EDownload "Download as CSV" "transactions.csv" "text/csv" [[]];
         EDownload "Download as Excel" "transactions.xlsx" "application/vnd.ms-excel" [[]]]).
Proof.
  apply (main_all_exports_fail broken_env [] "/tmp/tmp1.pdf"
           [{| export_to_dataframe := inr "bad table" |}]);
    [reflexivity | reflexivity | reflexivity | reflexivity | discriminate |].
  intros t [<- | []]. eexists. reflexivity.
Defined.

(** *** More on the records *)

Lemma match_at_pattern_consumes s cs s' :
  match_at pattern s = Some (cs, s') ->
  String.length s' + min_len pattern <= String.length s.
Proof.
  unfold match_at. intros H.
  destruct (matcher_sound _ _ _ _ _ H) as (w & s'' & cs'' & -> & M & Hk).
  injection Hk as _ ->.
  pose proof (min_len_sound _ _ _ _ M) as Hl.
  rewrite length_app_str. lia.
Qed.

Lemma finditer_fuel_count f s :
  length (finditer_fuel pattern f s) * min_len pattern <= String.length s.
Proof.
  revert s. induction f as [|f IH]; intros s; [simpl; lia|].
  cbn [finditer_fuel]. destruct (match_at pattern s) as [[cs s']|] eqn:E.
  - apply match_at_pattern_consumes in E. specialize (IH s'). cbn [length]. lia.
  - destruct s as [|c t]; [simpl; lia|]. specialize (IH t). simpl String.length. lia.
Qed.

Lemma map_exc_length {A B} (f : A -> exc B) l ys :
  map_exc f l = Ok ys -> length ys = length l.
Proof.
  revert ys. induction l as [|x l IH]; intros ys H; simpl in H.
  - injection H as <-. reflexivity.
  - destruct (f x); [|discriminate]. simpl in H.
    destruct (map_exc f l) as [ys'|] eqn:E; [|discriminate].
    injection H as <-. simpl. f_equal. apply IH. reflexivity.
Qed.

(** X8: a transaction line takes at least 31 characters, so a row adds at
    most (length of its flattened text) / 31 records. *)
Theorem row_record_bound :
  forall acc r recs,
    process_row acc r = Ok recs ->
    (length recs - length acc) * 31 <= String.length (row_text r).
Proof.
  intros acc r recs H. rewrite process_row_map in H.
  destruct (map_exc record_of_match (row_matches r)) as [ys|] eqn:E; [|discriminate].
  simpl in H. injection H as <-.
  apply map_exc_length in E. rewrite length_app, E.
  replace (length acc + length (row_matches r) - length acc) with (length (row_matches r))
    by lia.
  unfold row_matches. destruct (String.eqb (row_text r) ""); [simpl; lia|].
  apply (finditer_fuel_count (S (String.length (row_text r))) (row_text r)).
Qed.

Lemma row_record_bound_witness :
  process_row [] (one_cell_row two_match_text) = Ok [debit_record_900; credit_record_950] /\
  (length [debit_record_900; credit_record_950] - length (@nil pyrecord)) * 31 <=
    String.length (row_text (one_cell_row two_match_text)).
Proof.
  assert (H : process_row [] (one_cell_row two_match_text) =
              Ok [debit_record_900; credit_record_950]) by (vm_compute; reflexivity).
  split; [exact H|]. exact (row_record_bound _ _ _ H).
Defined.
